(** * LoginModal.vue: the login form controller

    A shallow embedding of [resources/js/Components/auth/LoginModal.vue].
    The component glues an Inertia form (the remote-submission state) to a
    vee-validate form (the local-validation state): four Vue watchers copy
    the Inertia form into the vee-validate form, [onSubmit] validates locally
    and then posts, and the three visit callbacks drive the modal store and
    the toasts.

    The component is event driven and single threaded, so every handler is a
    total function on the application state [App]; the only suspension point,
    the request made by [post], is split into [post] (dispatch) and
    [complete] (the response arrives). Calls to the outside (transport,
    toasts, the finish callback) are recorded in [trace]. *)

From stdpp Require Import gmap strings list fin_maps.

Open Scope string_scope.

(** ** Data model *)

(** The data of [useForm<{ email: string; password: string; remember: boolean }>]. *)
Record Values := {
  email : string;
  password : string;
  remember : bool
}.

(** The fixed field set of the form. *)
Inductive Field := Email | Password | Remember.

(** One write to a field, with the value type the field has. *)
Inductive Assignment :=
| AssignEmail (s : string)
| AssignPassword (s : string)
| AssignRemember (b : bool).

Definition assign (a : Assignment) (v : Values) : Values :=
  match a with
  | AssignEmail s => {| email := s; password := password v; remember := remember v |}
  | AssignPassword s => {| email := email v; password := s; remember := remember v |}
  | AssignRemember b => {| email := email v; password := password v; remember := b |}
  end.

(** [inertiaForm]: the object returned by Inertia's [useForm]. An error
    mapping is a JS object from field names to messages; a key that is absent
    reads as [undefined]. *)
Record InertiaForm := {
  data : Values;
  errors : gmap string string;
  processing : bool
}.

(** The part of vee-validate's [useForm] result the component uses:
    [values] and the error mapping behind [setErrors]. *)
Record VeeForm := {
  values : Values;
  fieldErrors : gmap string string
}.

(** [modalStore]: only [isLoginOpen] is read and written here. *)
Record ModalStore := {
  isLoginOpen : bool
}.

(** What each of the four [watch] calls saw when it last ran. The getters of
    the first three return primitives, compared by value. The getter of the
    fourth returns the [errors] object, compared by identity: Inertia puts a
    fresh object in [errors] at every replacement, so the watcher has a
    changed value exactly when [errors] was replaced since it last ran, which
    is what [errorsReplaced] records. *)
Record Watchers := {
  seenEmail : string;
  seenPassword : string;
  seenRemember : bool;
  errorsReplaced : bool
}.

Inductive Level := LSuccess | LError.

(** Calls to the collaborators, in the order they are made. *)
Inductive Effect :=
| Post (url : string) (payload : Values)
| Toast (level : Level) (title description : string)
| Finish.

Record App := {
  inertiaForm : InertiaForm;
  veeForm : VeeForm;
  modalStore : ModalStore;
  watchers : Watchers;
  trace : list Effect
}.

(** How one request ends. *)
Inductive Outcome :=
| Success
| Failure (remoteErrors : gmap string string).

(** ** State plumbing *)

Definition withInertiaForm (f : InertiaForm) (st : App) : App :=
  {| inertiaForm := f; veeForm := veeForm st; modalStore := modalStore st;
     watchers := watchers st; trace := trace st |}.

Definition withVeeForm (v : VeeForm) (st : App) : App :=
  {| inertiaForm := inertiaForm st; veeForm := v; modalStore := modalStore st;
     watchers := watchers st; trace := trace st |}.

Definition withModalStore (m : ModalStore) (st : App) : App :=
  {| inertiaForm := inertiaForm st; veeForm := veeForm st; modalStore := m;
     watchers := watchers st; trace := trace st |}.

Definition withWatchers (w : Watchers) (st : App) : App :=
  {| inertiaForm := inertiaForm st; veeForm := veeForm st; modalStore := modalStore st;
     watchers := w; trace := trace st |}.

Definition emit (e : Effect) (st : App) : App :=
  {| inertiaForm := inertiaForm st; veeForm := veeForm st; modalStore := modalStore st;
     watchers := watchers st; trace := trace st ++ [e] |}.

(** ** JavaScript values *)

(** Truthiness of a [string | undefined]: [undefined] and the empty string
    are falsy. *)
Definition truthy (o : option string) : bool :=
  match o with
  | Some s => negb (String.eqb s "")
  | None => false
  end.

(** [a || d] for [a : string | undefined] and a string [d]. *)
Definition orElse (a : option string) (d : string) : string :=
  match a with
  | Some s => if truthy a then s else d
  | None => d
  end.

(** Text interpolation [{{ e }}]: [undefined] renders as the empty string. *)
Definition interpolate (o : option string) : string :=
  match o with
  | Some s => s
  | None => ""
  end.

(** ** The Inertia form (lines 59-67) *)

(** The initial data given to [useForm]; Inertia keeps it as the defaults
    that [reset] restores. *)
Definition defaults : Values :=
  {| email := ""; password := ""; remember := false |}.

(** A write to a data property, as [v-model="inertiaForm.email"] and the
    checkbox handler [inertiaForm.remember = !!value] make it. *)
Definition setField (a : Assignment) (st : App) : App :=
  let f := inertiaForm st in
  withInertiaForm {| data := assign a (data f); errors := errors f;
                     processing := processing f |} st.

(** Replacing [inertiaForm.errors] by a fresh object holding [E]; the watcher
    on [errors] now has a changed value. *)
Definition replaceErrors (E : gmap string string) (st : App) : App :=
  let f := inertiaForm st in
  let w := watchers st in
  withWatchers {| seenEmail := seenEmail w; seenPassword := seenPassword w;
                  seenRemember := seenRemember w; errorsReplaced := true |}
    (withInertiaForm {| data := data f; errors := E; processing := processing f |} st).

Definition setProcessing (b : bool) (st : App) : App :=
  let f := inertiaForm st in
  withInertiaForm {| data := data f; errors := errors f; processing := b |} st.

(** Modelled from the spec: Inertia's [clearErrors()], which is not part of
    this repository. It empties [errors] without touching [values] or
    [processing]. *)
Definition clearErrors (st : App) : App := replaceErrors ∅ st.

Definition fieldDefault (fd : Field) : Assignment :=
  match fd with
  | Email => AssignEmail (email defaults)
  | Password => AssignPassword (password defaults)
  | Remember => AssignRemember (remember defaults)
  end.

(** Modelled from the spec: Inertia's [reset(fieldName?)], which is not part
    of this repository. Given a field it resets only that field to its
    default; without one it resets all fields and clears [errors]. *)
Definition reset (fd : option Field) (st : App) : App :=
  match fd with
  | Some x => setField (fieldDefault x) st
  | None =>
      let f := inertiaForm st in
      clearErrors
        (withInertiaForm {| data := defaults; errors := errors f;
                            processing := processing f |} st)
  end.

(** The callbacks passed to [post] in its options object. *)
Record VisitOptions := {
  onSuccess : App -> App;
  onError : gmap string string -> App -> App;
  onFinish : App -> App
}.

(** Modelled from the spec: Inertia's [post] (the spec's [submit]), which is
    not part of this repository. While [processing] is true the call is a
    no-op; otherwise it sets [processing] and hands the values to the
    transport. The callbacks of [opts] run when the request completes, see
    [complete]. *)
Definition post (url : string) (opts : VisitOptions) (st : App) : App :=
  if processing (inertiaForm st) then st
  else emit (Post url (data (inertiaForm st))) (setProcessing true st).

(** Modelled from the spec: the completion of the request made by [post]. It
    invokes exactly one of [onSuccess] and [onError], then [onFinish], then
    clears [processing]. The errors of a failure are in [inertiaForm.errors]
    before [onError] runs (the comment at lines 127-129). Without a request in
    flight nothing completes. *)
Definition complete (opts : VisitOptions) (o : Outcome) (st : App) : App :=
  if processing (inertiaForm st) then
    let st1 :=
      match o with
      | Success => onSuccess opts st
      | Failure E => onError opts E (replaceErrors E st)
      end in
    setProcessing false (onFinish opts st1)
  else st.

(** ** The vee-validate form (lines 72-80) *)

(** Modelled from the spec: vee-validate's [setFieldValue], which is not part
    of this repository. It overwrites the projected value. *)
Definition setFieldValue (a : Assignment) (st : App) : App :=
  let v := veeForm st in
  withVeeForm {| values := assign a (values v); fieldErrors := fieldErrors v |} st.

(** Modelled from the spec: vee-validate's [setErrors], which is not part of
    this repository. It is a full replace of the local error mapping. *)
Definition setErrors (E : gmap string string) (st : App) : App :=
  let v := veeForm st in
  withVeeForm {| values := values v; fieldErrors := E |} st.

(** ** The modal store and the toasts *)

(** Modelled from the spec: [hideModal(ModalEnum.LOGIN)] of [@/stores/modal],
    which is not among the sources of this component. It closes the visibility flag the
    dialog is bound to, [isLoginOpen]. *)
Definition hideModal (st : App) : App :=
  withModalStore {| isLoginOpen := false |} st.

Definition toastSuccess (title description : string) (st : App) : App :=
  emit (Toast LSuccess title description) st.

Definition toastError (title description : string) (st : App) : App :=
  emit (Toast LError title description) st.

(** ** The component (script part) *)

Section Component.

(** zod's pattern for [.email()] belongs to the zod library; the component
    is verified for any such test. *)
Variable isEmail : string -> bool.

(** *** [formSchema] (lines 40-55) *)

(** [z.string().min(n, { message })]: an issue when the string is shorter
    than [n]. Lengths are needed only against 1 here, where bytes and UTF-16
    code units agree. *)
Definition zMin (n : nat) (message : string) (s : string) : list string :=
  if (n <=? String.length s)%nat then [] else [message].

(** [z.string().email({ message })]. *)
Definition zEmail (message : string) (s : string) : list string :=
  if isEmail s then [] else [message].

(** The checks of a string schema all run, in the order they were chained. *)
Definition emailIssues (s : string) : list string :=
  zEmail "Please enter a valid email address" s ++ zMin 1 "Email is required" s.

Definition passwordIssues (s : string) : list string :=
  zMin 1 "Password must be at least 6 characters" s.

(** [z.boolean().optional()] accepts every boolean. *)
Definition rememberIssues (b : bool) : list string := [].

(** [toTypedSchema]: a field with issues is reported with its first message. *)
Definition report (field : string) (issues : list string)
    (E : gmap string string) : gmap string string :=
  match issues with
  | [] => E
  | m :: _ => <[field := m]> E
  end.

Definition formSchema (v : Values) : gmap string string :=
  report "email" (emailIssues (email v))
    (report "password" (passwordIssues (password v))
       (report "remember" (rememberIssues (remember v)) ∅)).

(** Modelled from the spec: vee-validate's [handleSubmit], which is not part
    of this repository (the spec's [gate]). It validates the current values
    against the schema and keeps the result as the local errors; the callback
    runs only when no field has an error (the comments at lines 109-112). *)
Definition handleSubmit (cb : App -> App) (st : App) : App :=
  let E := formSchema (values (veeForm st)) in
  let st' := setErrors E st in
  if decide (E = ∅) then cb st' else st'.

(** *** The watchers (lines 84-106) *)

Definition sawEmail (s : string) (st : App) : App :=
  let w := watchers st in
  withWatchers {| seenEmail := s; seenPassword := seenPassword w;
                  seenRemember := seenRemember w;
                  errorsReplaced := errorsReplaced w |} st.

Definition sawPassword (s : string) (st : App) : App :=
  let w := watchers st in
  withWatchers {| seenEmail := seenEmail w; seenPassword := s;
                  seenRemember := seenRemember w;
                  errorsReplaced := errorsReplaced w |} st.

Definition sawRemember (b : bool) (st : App) : App :=
  let w := watchers st in
  withWatchers {| seenEmail := seenEmail w; seenPassword := seenPassword w;
                  seenRemember := b;
                  errorsReplaced := errorsReplaced w |} st.

Definition sawErrors (st : App) : App :=
  let w := watchers st in
  withWatchers {| seenEmail := seenEmail w; seenPassword := seenPassword w;
                  seenRemember := seenRemember w;
                  errorsReplaced := false |} st.

(** [watch(() => inertiaForm.email, (newValue) => setFieldValue("email", newValue))] *)
Definition watchEmail (st : App) : App :=
  let newValue := email (data (inertiaForm st)) in
  if decide (newValue = seenEmail (watchers st)) then st
  else setFieldValue (AssignEmail newValue) (sawEmail newValue st).

(** [watch(() => inertiaForm.password, (newValue) => setFieldValue("password", newValue))] *)
Definition watchPassword (st : App) : App :=
  let newValue := password (data (inertiaForm st)) in
  if decide (newValue = seenPassword (watchers st)) then st
  else setFieldValue (AssignPassword newValue) (sawPassword newValue st).

(** [watch(() => inertiaForm.remember, (newValue) => setFieldValue("remember", newValue))] *)
Definition watchRemember (st : App) : App :=
  let newValue := remember (data (inertiaForm st)) in
  if decide (newValue = seenRemember (watchers st)) then st
  else setFieldValue (AssignRemember newValue) (sawRemember newValue st).

(** The callback [(newErrors) => { if (newErrors) { setErrors(newErrors); } }];
    [None] stands for a [null] or [undefined] argument. *)
Definition errorsCallback (newErrors : option (gmap string string)) (st : App) : App :=
  match newErrors with
  | Some E => setErrors E st
  | None => st
  end.

(** [watch(() => inertiaForm.errors, ...)]: [errors] always holds an object. *)
Definition watchErrors (st : App) : App :=
  if errorsReplaced (watchers st)
  then errorsCallback (Some (errors (inertiaForm st))) (sawErrors st)
  else st.

(** One flush of the scheduler: the watchers run in the order they were
    created. *)
Definition flush (st : App) : App :=
  watchErrors (watchRemember (watchPassword (watchEmail st))).

(** *** Submission (lines 111-143) *)

Definition loginOptions : VisitOptions :=
  {| onSuccess := fun st =>
       toastSuccess "Login successful" "You have successfully logged in."
         (hideModal st);
     onError := fun errs st =>
       toastError "Login failed"
         (orElse (errs !! "email")
            (orElse (errs !! "password") "Check credentials and try again."))
         (reset (Some Password) st);
     onFinish := fun st => emit Finish st |}.

(** [route("login")]: resolving the URL is left to the router, and
    [preserveScroll] to the page. *)
Definition onSubmit (st : App) : App :=
  handleSubmit (post "login" loginOptions) st.

(** *** [updateOpenState] (lines 146-151) *)

Definition updateOpenState (open : bool) (st : App) : App :=
  let st1 := withModalStore {| isLoginOpen := open |} st in
  if negb open then clearErrors st1 else st1.

(** ** The component (template part) *)

(** The three error blocks of lines 226-243: [None] when the [v-if] hides the
    block, otherwise the text it shows. *)
Definition emailErrorBlock (f : InertiaForm) : option string :=
  if truthy (errors f !! "email")
  then Some (interpolate (errors f !! "email")) else None.

Definition passwordErrorBlock (f : InertiaForm) : option string :=
  if truthy (errors f !! "password")
  then Some (interpolate (errors f !! "remember")) else None.

Definition rememberErrorBlock (f : InertiaForm) : option string :=
  if truthy (errors f !! "remember")
  then Some (interpolate (errors f !! "remember")) else None.

(** The submit button, [:disabled="inertiaForm.processing"]: a click on a
    disabled button submits nothing. *)
Definition submitDisabled (st : App) : bool := processing (inertiaForm st).

Definition clickSubmit (st : App) : App :=
  if submitDisabled st then st else onSubmit st.

(** The text on the submit button (lines 254-255): two spans under
    [v-if="inertiaForm.processing"] and [v-else]. *)
Definition submitLabel (st : App) : string :=
  if processing (inertiaForm st) then "Logging In..." else "Log In".

(** ** Running the component *)

(** The state after [setup]: the vee-validate form starts from the Inertia
    form's values ([initialValues], lines 75-79), which are also the first
    values the watchers hold. The modal store is shared, so the flag starts
    as it is found. *)
Definition mount (open : bool) : App :=
  {| inertiaForm := {| data := defaults; errors := ∅; processing := false |};
     veeForm := {| values := defaults; fieldErrors := ∅ |};
     modalStore := {| isLoginOpen := open |};
     watchers := {| seenEmail := email defaults; seenPassword := password defaults;
                    seenRemember := remember defaults; errorsReplaced := false |};
     trace := [] |}.

Inductive Event :=
| Input (a : Assignment)
| Flush
| Submit
| Click
| Complete (o : Outcome)
| OpenChange (open : bool).

Definition step (st : App) (e : Event) : App :=
  match e with
  | Input a => setField a st
  | Flush => flush st
  | Submit => onSubmit st
  | Click => clickSubmit st
  | Complete o => complete loginOptions o st
  | OpenChange open => updateOpenState open st
  end.

Definition run (evs : list Event) (st : App) : App := fold_left step evs st.

End Component.

(** A stand-in for zod's pattern in the examples below: a string that holds
    an at sign. *)
Definition hasAt (s : string) : bool :=
  match String.index 0 "@" s with
  | Some _ => true
  | None => false
  end.

(** ** Notions used by the statements *)

(** The vee-validate values are what the three value watchers last saw. *)
Definition synced (st : App) : Prop :=
  values (veeForm st) =
  {| email := seenEmail (watchers st); password := seenPassword (watchers st);
     remember := seenRemember (watchers st) |}.

(** A submission attempt: the form's submit event or a click on the button. *)
Definition isAttempt (e : Event) : bool :=
  match e with
  | Submit | Click => true
  | _ => false
  end.

Definition isSuccessToast (e : Effect) : bool :=
  match e with
  | Toast LSuccess _ _ => true
  | _ => false
  end.

Definition isPost (e : Effect) : bool :=
  match e with
  | Post _ _ => true
  | _ => false
  end.

(** How many calls in a trace satisfy [p]. *)
Definition calls (p : Effect -> bool) (t : list Effect) : nat :=
  length (filter (fun e => p e = true) t).

Definition isFinish (e : Effect) : bool :=
  match e with
  | Finish => true
  | _ => false
  end.

Definition isToast (e : Effect) : bool :=
  match e with
  | Toast _ _ _ => true
  | _ => false
  end.

(** Every request sent has finished, but for the one in flight, and every
    finished request has shown one toast. *)
Definition balanced (st : App) : Prop :=
  calls isPost (trace st)
  = (calls isFinish (trace st) + (if processing (inertiaForm st) then 1 else 0))%nat
  /\ calls isToast (trace st) = calls isFinish (trace st).

(** The events other than a change of the dialog's open state and a
    successful completion. *)
Definition keepsDialog (e : Event) : bool :=
  match e with
  | OpenChange _ | Complete Success => false
  | _ => true
  end.

(** The events other than a write by the user and a failed completion. *)
Definition keepsValues (e : Event) : bool :=
  match e with
  | Input _ | Complete (Failure _) => false
  | _ => true
  end.

(** ** Scenarios *)

Definition scenarioValues : list Event :=
  [Input (AssignEmail "a@b.com"); Input (AssignPassword "x"); Flush].

(** The state with a request in flight: valid values were submitted. *)
Definition inFlight : App :=
  run hasAt (scenarioValues ++ [Submit]) (mount true).

(** The errors of a rejected login. *)
Definition rejected : gmap string string :=
  {["password" := "Invalid credentials"]}.

(** Valid values, the transport answers with a success. *)
Example scenario_success :
  let st := run hasAt (scenarioValues ++ [Submit; Complete Success; Flush]) (mount true) in
  isLoginOpen (modalStore st) = false
  /\ trace st = [Post "login" {| email := "a@b.com"; password := "x"; remember := false |};
                 Toast LSuccess "Login successful" "You have successfully logged in.";
                 Finish]
  /\ data (inertiaForm st) = {| email := "a@b.com"; password := "x"; remember := false |}
  /\ values (veeForm st) = data (inertiaForm st)
  /\ processing (inertiaForm st) = false.
Proof. vm_compute. tauto. Qed.

(** An empty email does not pass the schema: nothing is sent. *)
Example scenario_gate_fails :
  let st := run hasAt [Input (AssignPassword "x"); Flush; Submit] (mount true) in
  trace st = []
  /\ isLoginOpen (modalStore st) = true
  /\ processing (inertiaForm st) = false
  /\ fieldErrors (veeForm st) !! "email" = Some "Please enter a valid email address"
  /\ fieldErrors (veeForm st) !! "password" = None.
Proof. vm_compute. tauto. Qed.

(** Valid values, the transport answers with a failure on the password. *)
Example scenario_failure :
  let st := run hasAt (scenarioValues ++ [Submit; Complete (Failure rejected); Flush])
              (mount true) in
  isLoginOpen (modalStore st) = true
  /\ trace st = [Post "login" {| email := "a@b.com"; password := "x"; remember := false |};
                 Toast LError "Login failed" "Invalid credentials";
                 Finish]
  /\ data (inertiaForm st) = {| email := "a@b.com"; password := ""; remember := false |}
  /\ values (veeForm st) = data (inertiaForm st)
  /\ fieldErrors (veeForm st) !! "password" = Some "Invalid credentials"
  /\ fieldErrors (veeForm st) !! "email" = None
  /\ processing (inertiaForm st) = false.
Proof. vm_compute. tauto. Qed.

(** ** Properties *)

Section Properties.

Variable isEmail : string -> bool.

(** *** The watchers *)

(** Runs the innermost value watcher of the goal: both outcomes of its
    comparison, one after the other. *)
Ltac run_watcher w saw :=
  unfold w, saw, setFieldValue, withWatchers, withVeeForm; simpl;
  case_decide; simpl.

(** What one flush does, field by field. *)
Lemma flush_eq (st : App) :
  flush st =
  {| inertiaForm := inertiaForm st;
     veeForm :=
       {| values :=
            {| email :=
                 if decide (email (data (inertiaForm st)) = seenEmail (watchers st))
                 then email (values (veeForm st))
                 else email (data (inertiaForm st));
               password :=
                 if decide (password (data (inertiaForm st)) = seenPassword (watchers st))
                 then password (values (veeForm st))
                 else password (data (inertiaForm st));
               remember :=
                 if decide (remember (data (inertiaForm st)) = seenRemember (watchers st))
                 then remember (values (veeForm st))
                 else remember (data (inertiaForm st)) |};
          fieldErrors :=
            if errorsReplaced (watchers st) then errors (inertiaForm st)
            else fieldErrors (veeForm st) |};
     modalStore := modalStore st;
     watchers :=
       {| seenEmail := email (data (inertiaForm st));
          seenPassword := password (data (inertiaForm st));
          seenRemember := remember (data (inertiaForm st));
          errorsReplaced := false |};
     trace := trace st |}.
Proof.
  destruct st as [[[e p r] E pr] [[ve vp vr] vE] m [se sp sr er] t].
  unfold flush.
  run_watcher watchEmail sawEmail.
  all: run_watcher watchPassword sawPassword.
  all: run_watcher watchRemember sawRemember.
  all: unfold watchErrors, errorsCallback, setErrors, sawErrors, withWatchers,
         withVeeForm; simpl.
  all: destruct er; simpl; congruence.
Qed.

Lemma flush_inertiaForm (st : App) : inertiaForm (flush st) = inertiaForm st.
Proof. rewrite flush_eq. reflexivity. Qed.

Lemma flush_modalStore (st : App) : modalStore (flush st) = modalStore st.
Proof. rewrite flush_eq. reflexivity. Qed.

Lemma flush_trace (st : App) : trace (flush st) = trace st.
Proof. rewrite flush_eq. reflexivity. Qed.

Lemma flush_seen (st : App) :
  {| email := seenEmail (watchers (flush st));
     password := seenPassword (watchers (flush st));
     remember := seenRemember (watchers (flush st)) |} = data (inertiaForm st).
Proof. rewrite flush_eq. simpl. destruct (data (inertiaForm st)); reflexivity. Qed.

Lemma flush_synced (st : App) : synced st -> synced (flush st).
Proof.
  unfold synced. intros H. rewrite flush_eq. simpl. rewrite H. simpl.
  repeat case_decide; congruence.
Qed.

Lemma flush_settled (st : App) : flush (flush st) = flush st.
Proof.
  rewrite (flush_eq (flush st)). rewrite (flush_eq st). simpl.
  repeat case_decide; congruence.
Qed.

(** *** Who writes the vee-validate values *)

Lemma setField_synced a st : synced st -> synced (setField a st).
Proof. exact id. Qed.

Lemma handleSubmit_synced cb st :
  (forall s, synced s -> synced (cb s)) -> synced st -> synced (handleSubmit isEmail cb st).
Proof.
  intros Hcb H. unfold handleSubmit. case_decide; [apply Hcb|]; exact H.
Qed.

Lemma post_synced url opts st : synced st -> synced (post url opts st).
Proof. unfold post. case_match; exact id. Qed.

Lemma complete_synced o st : synced st -> synced (complete loginOptions o st).
Proof. unfold complete. case_match; [|exact id]. destruct o; exact id. Qed.

Lemma updateOpenState_synced open st : synced st -> synced (updateOpenState open st).
Proof. destruct open; exact id. Qed.

Lemma step_synced st e : synced st -> synced (step isEmail st e).
Proof.
  destruct e; simpl.
  - apply setField_synced.
  - apply flush_synced.
  - apply handleSubmit_synced, post_synced.
  - unfold clickSubmit. case_match; [exact id|].
    apply handleSubmit_synced, post_synced.
  - apply complete_synced.
  - apply updateOpenState_synced.
Qed.

Lemma run_synced evs st : synced st -> synced (run isEmail evs st).
Proof.
  revert st. induction evs as [|e evs IH]; intros st H; simpl; [exact H|].
  apply IH, step_synced, H.
Qed.

Lemma mount_synced open : synced (mount open).
Proof. reflexivity. Qed.

Lemma flush_mirrors st :
  synced st -> values (veeForm (flush st)) = data (inertiaForm st).
Proof.
  intros H. apply flush_synced in H. unfold synced in H.
  rewrite H. apply flush_seen.
Qed.

(** C1. From the mounted component, after any run of events followed by any
    sequence of field writes, once the watchers have been flushed the
    vee-validate values equal the Inertia form's values, field for field, and
    a further flush changes nothing. The flush never writes to the Inertia
    form, in any state: values flow from the Inertia form to the vee-validate
    form only. *)
Theorem mirroring_after_settle :
  (forall (open : bool) (evs : list Event) (writes : list Assignment),
     let st := run isEmail (map Input writes) (run isEmail evs (mount open)) in
     values (veeForm (flush st)) = data (inertiaForm (flush st))
     /\ email (values (veeForm (flush st))) = email (data (inertiaForm st))
     /\ password (values (veeForm (flush st))) = password (data (inertiaForm st))
     /\ remember (values (veeForm (flush st))) = remember (data (inertiaForm st))
     /\ flush (flush st) = flush st)
  /\ (forall st : App, inertiaForm (flush st) = inertiaForm st).
Proof.
  split; [|apply flush_inertiaForm].
  intros open evs writes st.
  assert (Hs : synced st) by (apply run_synced, run_synced, mount_synced).
  pose proof (flush_mirrors st Hs) as Hm.
  rewrite flush_inertiaForm, Hm.
  repeat split; apply flush_settled.
Qed.

(** *** The error watcher *)

Lemma flush_replaced_errors st :
  errorsReplaced (watchers st) = true ->
  fieldErrors (veeForm (flush st)) = errors (inertiaForm st).
Proof. intros H. rewrite flush_eq. simpl. rewrite H. reflexivity. Qed.

(** C2. Whatever the Inertia errors [E1] and the vee-validate errors were,
    once [inertiaForm.errors] is replaced by [E2] and the watchers are
    flushed, the vee-validate errors are [E2]: every key of [E2] has its
    message and no other key is left. This holds on both paths that replace
    the errors here, a failed request and the closing of the dialog. *)
Theorem error_sync_replaces :
  (forall (st : App) (E1 E2 : gmap string string),
     errors (inertiaForm st) = E1 ->
     let st' := flush (replaceErrors E2 st) in
     fieldErrors (veeForm st') = E2
     /\ (forall k m, E2 !! k = Some m -> fieldErrors (veeForm st') !! k = Some m)
     /\ (forall k, E2 !! k = None -> fieldErrors (veeForm st') !! k = None))
  /\ (forall (st : App) (E2 : gmap string string),
       processing (inertiaForm st) = true ->
       fieldErrors (veeForm (flush (complete loginOptions (Failure E2) st))) = E2)
  /\ (forall st : App,
       fieldErrors (veeForm (flush (updateOpenState false st))) = ∅).
Proof.
  split; [|split].
  - intros st E1 E2 _ st'.
    assert (H : fieldErrors (veeForm st') = E2)
      by (unfold st'; rewrite flush_replaced_errors; reflexivity).
    rewrite H. auto.
  - intros st E2 Hp. rewrite flush_replaced_errors.
    + unfold complete. rewrite Hp. reflexivity.
    + unfold complete. rewrite Hp. reflexivity.
  - intros st. rewrite flush_replaced_errors; reflexivity.
Qed.

(** *** Submission *)

Lemma handleSubmit_inertiaForm cb st :
  (forall s, inertiaForm (cb s) = inertiaForm s) ->
  inertiaForm (handleSubmit isEmail cb st) = inertiaForm st.
Proof.
  intros Hcb. unfold handleSubmit. case_decide; [rewrite Hcb|]; reflexivity.
Qed.

Lemma handleSubmit_trace cb st :
  (forall s, trace (cb s) = trace s) ->
  trace (handleSubmit isEmail cb st) = trace st.
Proof.
  intros Hcb. unfold handleSubmit. case_decide; [rewrite Hcb|]; reflexivity.
Qed.

Lemma onSubmit_processing st :
  processing (inertiaForm st) = true ->
  inertiaForm (onSubmit isEmail st) = inertiaForm st
  /\ trace (onSubmit isEmail st) = trace st.
Proof.
  intros Hp. unfold onSubmit, handleSubmit, post.
  case_decide; simpl; [rewrite Hp|]; split; reflexivity.
Qed.

Lemma attempt_processing st e :
  isAttempt e = true ->
  processing (inertiaForm st) = true ->
  inertiaForm (step isEmail st e) = inertiaForm st
  /\ trace (step isEmail st e) = trace st.
Proof.
  intros He Hp. destruct e; try discriminate He; simpl.
  - apply onSubmit_processing, Hp.
  - unfold clickSubmit, submitDisabled. rewrite Hp. split; reflexivity.
Qed.

(** C3. While [processing] is true, submission attempts (the form's submit
    event, which calls [onSubmit], or a click on the submit button), however
    many, make no call to the transport and leave the Inertia form (values,
    errors, [processing]) as it is; a click on the disabled button leaves the
    whole state as it is. *)
Theorem no_duplicate_in_flight (st : App) (evs : list Event) :
  processing (inertiaForm st) = true ->
  forallb isAttempt evs = true ->
  trace (run isEmail evs st) = trace st
  /\ calls isPost (trace (run isEmail evs st)) = calls isPost (trace st)
  /\ inertiaForm (run isEmail evs st) = inertiaForm st
  /\ processing (inertiaForm (onSubmit isEmail st)) = true
  /\ clickSubmit isEmail st = st.
Proof.
  intros Hp Hevs.
  assert (H : trace (run isEmail evs st) = trace st
              /\ inertiaForm (run isEmail evs st) = inertiaForm st).
  { revert st Hp. induction evs as [|e evs IH]; intros st Hp; simpl; [auto|].
    simpl in Hevs. apply andb_prop in Hevs as [He Hevs].
    destruct (attempt_processing st e He Hp) as [Hf Ht].
    destruct (IH Hevs (step isEmail st e)) as [IHt IHf].
    { rewrite Hf. exact Hp. }
    rewrite IHt, IHf, Hf, Ht. auto. }
  destruct H as [Ht Hf]. rewrite Ht, Hf.
  destruct (onSubmit_processing st Hp) as [Hf' _]. rewrite Hf'.
  repeat split; [exact Hp|].
  unfold clickSubmit, submitDisabled. rewrite Hp. reflexivity.
Qed.

(** [onSubmit] keeps the outcome of the validation as the local errors. *)
Lemma onSubmit_fieldErrors st :
  fieldErrors (veeForm (onSubmit isEmail st)) = formSchema isEmail (values (veeForm st)).
Proof.
  unfold onSubmit, handleSubmit, post.
  repeat (case_decide || case_match); reflexivity.
Qed.

(** C4. When the schema reports an error for the current values, [onSubmit]
    makes no call at all to the outside: the transport is not invoked and the
    finish callback does not run. The Inertia form is untouched, the errors
    of the schema become the local errors, and, no request being in flight
    for the attempt, no completion can run the callbacks for it. *)
Theorem gate_blocks_network (st : App) :
  formSchema isEmail (values (veeForm st)) <> ∅ ->
  trace (onSubmit isEmail st) = trace st
  /\ calls isPost (trace (onSubmit isEmail st)) = calls isPost (trace st)
  /\ inertiaForm (onSubmit isEmail st) = inertiaForm st
  /\ fieldErrors (veeForm (onSubmit isEmail st)) = formSchema isEmail (values (veeForm st))
  /\ (processing (inertiaForm st) = false ->
      forall o, complete loginOptions o (onSubmit isEmail st) = onSubmit isEmail st).
Proof.
  intros Hne.
  assert (H : onSubmit isEmail st = setErrors (formSchema isEmail (values (veeForm st))) st).
  { unfold onSubmit, handleSubmit. case_decide; [contradiction|reflexivity]. }
  rewrite H. repeat split.
  intros Hp o. unfold complete. simpl. rewrite Hp. reflexivity.
Qed.

(** *** The schema *)

Lemma report_lookup_ne field issues (E : gmap string string) k :
  field <> k -> report field issues E !! k = E !! k.
Proof.
  intros Hne. destruct issues as [|m ms]; simpl; [reflexivity|].
  by rewrite lookup_insert_ne.
Qed.

Lemma report_lookup_eq field issues (E : gmap string string) :
  report field issues E !! field =
  match issues with
  | [] => E !! field
  | m :: _ => Some m
  end.
Proof.
  destruct issues as [|m ms]; simpl; [reflexivity|]. apply lookup_insert_eq.
Qed.

Lemma formSchema_password v :
  formSchema isEmail v !! "password" =
  match passwordIssues (password v) with
  | [] => None
  | m :: _ => Some m
  end.
Proof.
  unfold formSchema.
  rewrite report_lookup_ne by discriminate.
  rewrite report_lookup_eq.
  rewrite report_lookup_ne by discriminate.
  reflexivity.
Qed.

(** C10. The schema asks of the password only a length of at least 1: for
    any non-empty password, those of 1 to 5 characters included, it reports
    no password error, and so does the validation in [onSubmit]; for the
    empty password it reports the message that speaks of 6 characters. *)
Theorem password_rule_min_one (st : App) :
  let v := values (veeForm st) in
  (password v <> "" ->
     formSchema isEmail v !! "password" = None
     /\ fieldErrors (veeForm (onSubmit isEmail st)) !! "password" = None)
  /\ ((1 <= String.length (password v) <= 5)%nat ->
      formSchema isEmail v !! "password" = None)
  /\ (password v = "" ->
      formSchema isEmail v !! "password" = Some "Password must be at least 6 characters"
      /\ fieldErrors (veeForm (onSubmit isEmail st)) !! "password"
         = Some "Password must be at least 6 characters").
Proof.
  intros v. rewrite onSubmit_fieldErrors. fold v. rewrite formSchema_password.
  unfold passwordIssues, zMin.
  destruct (password v) as [|c s]; simpl.
  - split; [intros []; reflexivity|]. split; [lia|]. auto.
  - split; [auto|]. split; [auto|]. discriminate.
Qed.

End Properties.

(** *** Completion of a request *)

Lemma complete_failure (st : App) (E : gmap string string) :
  processing (inertiaForm st) = true ->
  complete loginOptions (Failure E) st =
  setProcessing false
    (emit Finish
       (toastError "Login failed"
          (orElse (E !! "email") (orElse (E !! "password") "Check credentials and try again."))
          (setField (AssignPassword "") (replaceErrors E st)))).
Proof. intros Hp. unfold complete. rewrite Hp. reflexivity. Qed.

Lemma complete_success (st : App) :
  processing (inertiaForm st) = true ->
  complete loginOptions Success st =
  setProcessing false
    (emit Finish
       (toastSuccess "Login successful" "You have successfully logged in." (hideModal st))).
Proof. intros Hp. unfold complete. rewrite Hp. reflexivity. Qed.

(** C5. When the request in flight fails, whatever the errors, the password
    is back at its default, the empty string, and the email and remember
    values are what they were. *)
Theorem failure_resets_only_password (st : App) (E : gmap string string) :
  processing (inertiaForm st) = true ->
  let st' := complete loginOptions (Failure E) st in
  password (data (inertiaForm st')) = password defaults
  /\ password (data (inertiaForm st')) = ""
  /\ email (data (inertiaForm st')) = email (data (inertiaForm st))
  /\ remember (data (inertiaForm st')) = remember (data (inertiaForm st)).
Proof.
  intros Hp st'. unfold st'. rewrite (complete_failure st E Hp).
  repeat split.
Qed.

Lemma orElse_truthy a d s : a = Some s -> s <> "" -> orElse a d = s.
Proof.
  intros -> Hs. unfold orElse, truthy.
  destruct (String.eqb_spec s ""); [contradiction|reflexivity].
Qed.

Lemma orElse_falsy a d : ~ (exists s, a = Some s /\ s <> "") -> orElse a d = d.
Proof.
  intros H. destruct a as [s|]; [|reflexivity]. unfold orElse, truthy.
  destruct (String.eqb_spec s ""); [reflexivity|].
  exfalso. apply H. eauto.
Qed.

(** C6. When the request in flight fails with errors [E], one error toast is
    shown, and its description is [E.email] if that is a non-empty string,
    otherwise [E.password] if that is a non-empty string, otherwise the fixed
    fallback text. *)
Theorem failure_notification_precedence (st : App) (E : gmap string string) :
  processing (inertiaForm st) = true ->
  exists description : string,
    trace (complete loginOptions (Failure E) st)
      = (trace st ++ [Toast LError "Login failed" description; Finish])%list
    /\ (forall s, E !! "email" = Some s -> s <> "" -> description = s)
    /\ (~ (exists s, E !! "email" = Some s /\ s <> "") ->
        forall s, E !! "password" = Some s -> s <> "" -> description = s)
    /\ (~ (exists s, E !! "email" = Some s /\ s <> "") ->
        ~ (exists s, E !! "password" = Some s /\ s <> "") ->
        description = "Check credentials and try again.").
Proof.
  intros Hp. eexists. split.
  - rewrite (complete_failure st E Hp). simpl. rewrite <- app_assoc. reflexivity.
  - split; [|split].
    + intros s He Hs. by apply orElse_truthy.
    + intros Hn s Hpw Hs. rewrite (orElse_falsy _ _ Hn). by apply orElse_truthy.
    + intros Hn Hn'. by rewrite (orElse_falsy _ _ Hn), (orElse_falsy _ _ Hn').
Qed.

Lemma calls_app p (t1 t2 : list Effect) :
  calls p (t1 ++ t2)%list = (calls p t1 + calls p t2)%nat.
Proof. unfold calls. by rewrite filter_app, length_app. Qed.

(** C7. When the request in flight succeeds, the login dialog's flag is
    closed, exactly one success toast is shown (followed by the finish
    callback), and the values of both forms are what they were. *)
Theorem success_side_effects (st : App) :
  processing (inertiaForm st) = true ->
  let st' := complete loginOptions Success st in
  isLoginOpen (modalStore st') = false
  /\ trace st' = (trace st ++ [Toast LSuccess "Login successful"
                                 "You have successfully logged in."; Finish])%list
  /\ calls isSuccessToast (trace st') = S (calls isSuccessToast (trace st))
  /\ data (inertiaForm st') = data (inertiaForm st)
  /\ values (veeForm st') = values (veeForm st).
Proof.
  intros Hp st'. unfold st'. rewrite (complete_success st Hp). simpl.
  rewrite <- app_assoc. simpl.
  repeat split. rewrite calls_app. unfold calls at 2. simpl. lia.
Qed.

(** *** The dialog *)

(** C8. Closing the dialog empties the Inertia errors and leaves the values
    and [processing] as they are, as well as the vee-validate form and the
    trace; closing twice gives the Inertia form and the flag that closing
    once gives; with no errors present the Inertia form is unchanged, and
    with the dialog already closed the flag is unchanged. Opening the dialog
    changes nothing but the flag. *)
Theorem close_clears_errors_only (st : App) :
  (errors (inertiaForm (updateOpenState false st)) = ∅
   /\ data (inertiaForm (updateOpenState false st)) = data (inertiaForm st)
   /\ processing (inertiaForm (updateOpenState false st)) = processing (inertiaForm st)
   /\ isLoginOpen (modalStore (updateOpenState false st)) = false
   /\ veeForm (updateOpenState false st) = veeForm st
   /\ trace (updateOpenState false st) = trace st)
  /\ (inertiaForm (updateOpenState false (updateOpenState false st))
        = inertiaForm (updateOpenState false st)
      /\ modalStore (updateOpenState false (updateOpenState false st))
        = modalStore (updateOpenState false st))
  /\ (errors (inertiaForm st) = ∅ ->
      inertiaForm (updateOpenState false st) = inertiaForm st)
  /\ (isLoginOpen (modalStore st) = false ->
      modalStore (updateOpenState false st) = modalStore st)
  /\ (inertiaForm (updateOpenState true st) = inertiaForm st
      /\ veeForm (updateOpenState true st) = veeForm st
      /\ watchers (updateOpenState true st) = watchers st
      /\ trace (updateOpenState true st) = trace st
      /\ isLoginOpen (modalStore (updateOpenState true st)) = true).
Proof.
  destruct st as [[d E pr] v [o] w t]; simpl.
  repeat split.
  - intros ->. reflexivity.
  - intros ->. reflexivity.
Qed.

(** Which text each block shows when it is shown. *)
Lemma errorBlocks_text (f : InertiaForm) (s : string) :
  (emailErrorBlock f = Some s -> errors f !! "email" = Some s)
  /\ (rememberErrorBlock f = Some s -> errors f !! "remember" = Some s)
  /\ (passwordErrorBlock f = Some s -> interpolate (errors f !! "remember") = s).
Proof.
  unfold emailErrorBlock, rememberErrorBlock, passwordErrorBlock.
  repeat split; case_match; intros [= <-]; try reflexivity;
    destruct (errors f !! _); simpl in *; congruence.
Qed.

(** C9. With a password error alone, the block shown for the password holds
    the (absent) remember error, that is, the empty text, and not the
    password's message; with a remember error as well it holds the remember
    message. The email and remember blocks show their own field's message. *)
Theorem password_block_shows_remember_error :
  let f := {| data := defaults; errors := rejected; processing := false |} in
  let g := {| data := defaults;
              errors := <["remember" := "Must be a boolean"]> rejected;
              processing := false |} in
  errors f !! "password" = Some "Invalid credentials"
  /\ passwordErrorBlock f = Some ""
  /\ passwordErrorBlock f <> Some "Invalid credentials"
  /\ passwordErrorBlock g = Some "Must be a boolean"
  /\ rememberErrorBlock g = Some "Must be a boolean"
  /\ emailErrorBlock
       {| data := defaults; errors := {["email" := "Unknown address"]};
          processing := false |} = Some "Unknown address".
Proof. vm_compute. repeat split; discriminate. Qed.

(** ** Instances *)

(** A rejected login reaches the vee-validate errors, and replacing the
    errors by the empty mapping afterwards leaves no password error behind. *)
Lemma error_sync_replaces_witness :
  processing (inertiaForm inFlight) = true
  /\ fieldErrors (veeForm (flush (complete loginOptions (Failure rejected) inFlight)))
     = rejected
  /\ fieldErrors (veeForm (flush (replaceErrors ∅
        (flush (complete loginOptions (Failure rejected) inFlight))))) !! "password"
     = None.
Proof.
  split; [reflexivity|]. split.
  - apply (proj1 (proj2 error_sync_replaces) inFlight rejected). reflexivity.
  - apply (proj1 error_sync_replaces
             (flush (complete loginOptions (Failure rejected) inFlight)) rejected ∅).
    + reflexivity.
    + reflexivity.
Defined.

(** Three more attempts while the first request is in flight. *)
Lemma no_duplicate_in_flight_witness :
  processing (inertiaForm inFlight) = true
  /\ trace (run hasAt [Submit; Click; Submit] inFlight) = trace inFlight
  /\ inertiaForm (run hasAt [Submit; Click; Submit] inFlight) = inertiaForm inFlight.
Proof.
  split; [reflexivity|].
  destruct (no_duplicate_in_flight hasAt inFlight [Submit; Click; Submit])
    as (Ht & _ & Hf & _); [reflexivity | reflexivity |].
  split; [exact Ht | exact Hf].
Defined.

(** A password without an email: the schema has an error and nothing is sent. *)
Lemma gate_blocks_network_witness :
  let st := run hasAt [Input (AssignPassword "x"); Flush] (mount true) in
  formSchema hasAt (values (veeForm st)) <> ∅
  /\ trace (onSubmit hasAt st) = trace st
  /\ inertiaForm (onSubmit hasAt st) = inertiaForm st.
Proof.
  intros st.
  assert (Hne : formSchema hasAt (values (veeForm st)) <> ∅) by (vm_compute; discriminate).
  split; [exact Hne|].
  destruct (gate_blocks_network hasAt st Hne) as (Ht & _ & Hf & _).
  split; [exact Ht | exact Hf].
Defined.

(** A password of three characters passes; the empty one gets the message. *)
Lemma password_rule_min_one_witness :
  let short := run hasAt [Input (AssignPassword "abc"); Flush] (mount true) in
  let none := mount true in
  (password (values (veeForm short)) <> ""
   /\ formSchema hasAt (values (veeForm short)) !! "password" = None)
  /\ (password (values (veeForm none)) = ""
      /\ formSchema hasAt (values (veeForm none)) !! "password"
         = Some "Password must be at least 6 characters").
Proof.
  intros short none.
  assert (Hs : password (values (veeForm short)) <> "") by (vm_compute; discriminate).
  assert (Hn : password (values (veeForm none)) = "") by reflexivity.
  split.
  - split; [exact Hs|].
    exact (proj1 (proj1 (password_rule_min_one hasAt short) Hs)).
  - split; [exact Hn|].
    exact (proj1 (proj2 (proj2 (password_rule_min_one hasAt none)) Hn)).
Defined.

(** The rejected login clears the password "x" and keeps the email. *)
Lemma failure_resets_only_password_witness :
  processing (inertiaForm inFlight) = true
  /\ password (data (inertiaForm inFlight)) = "x"
  /\ password (data (inertiaForm (complete loginOptions (Failure rejected) inFlight))) = ""
  /\ email (data (inertiaForm (complete loginOptions (Failure rejected) inFlight)))
     = "a@b.com".
Proof.
  split; [reflexivity|]. split; [reflexivity|].
  destruct (failure_resets_only_password inFlight rejected)
    as (_ & Hpw & He & _); [reflexivity|].
  split; [exact Hpw | exact He].
Defined.

(** With a password error alone the toast shows the password message. *)
Lemma failure_notification_precedence_witness :
  processing (inertiaForm inFlight) = true
  /\ exists description : string,
       trace (complete loginOptions (Failure rejected) inFlight)
         = (trace inFlight ++ [Toast LError "Login failed" description; Finish])%list
       /\ description = "Invalid credentials".
Proof.
  split; [reflexivity|].
  destruct (failure_notification_precedence inFlight rejected)
    as (d & Ht & _ & Hpw & _); [reflexivity|].
  exists d. split; [exact Ht|].
  apply Hpw.
  - intros (s & He & _). vm_compute in He. discriminate He.
  - reflexivity.
  - discriminate.
Defined.

(** The accepted login closes the open dialog and keeps the values. *)
Lemma success_side_effects_witness :
  processing (inertiaForm inFlight) = true
  /\ isLoginOpen (modalStore inFlight) = true
  /\ isLoginOpen (modalStore (complete loginOptions Success inFlight)) = false
  /\ data (inertiaForm (complete loginOptions Success inFlight)) = data (inertiaForm inFlight).
Proof.
  split; [reflexivity|]. split; [reflexivity|].
  destruct (success_side_effects inFlight) as (Ho & _ & _ & Hd & _); [reflexivity|].
  split; [exact Ho | exact Hd].
Defined.

(** Closing a closed dialog without errors changes neither form nor flag. *)
Lemma close_clears_errors_only_witness :
  let idle := mount false in
  errors (inertiaForm idle) = ∅
  /\ isLoginOpen (modalStore idle) = false
  /\ inertiaForm (updateOpenState false idle) = inertiaForm idle
  /\ modalStore (updateOpenState false idle) = modalStore idle.
Proof.
  intros idle.
  assert (He : errors (inertiaForm idle) = ∅) by reflexivity.
  assert (Ho : isLoginOpen (modalStore idle) = false) by reflexivity.
  destruct (close_clears_errors_only idle) as (_ & _ & Hf & Hm & _).
  split; [exact He|]. split; [exact Ho|].
  split; [exact (Hf He) | exact (Hm Ho)].
Defined.

(** ** Further properties of the component *)

Section Schema.

Variable isEmail : string -> bool.

(** X1. The schema lets the values through exactly when the email passes
    the email test and is not empty and the password is not empty. *)
Theorem schema_passes_iff (v : Values) :
  formSchema isEmail v = ∅
  <-> isEmail (email v) = true /\ email v <> "" /\ password v <> "".
Proof.
  unfold formSchema, report, emailIssues, passwordIssues, rememberIssues, zEmail, zMin.
  destruct (isEmail (email v)), (email v) as [|c e], (password v) as [|c' p']; simpl;
    split; try (intros H; exfalso; exact (insert_non_empty _ _ _ H));
    try (intros (H1 & H2 & H3); congruence); try done.
Qed.

Lemma formSchema_email v :
  formSchema isEmail v !! "email" =
  match emailIssues isEmail (email v) with
  | [] => None
  | m :: _ => Some m
  end.
Proof.
  unfold formSchema. rewrite report_lookup_eq.
  rewrite !report_lookup_ne by discriminate. reflexivity.
Qed.

(** X2. Under an email test that rejects the empty string, the message
    "Email is required" is never the one reported: an empty email, like any
    other rejected one, is reported as not valid, and an accepted email has no
    error. *)
Theorem email_required_never_reported (v : Values) :
  isEmail "" = false ->
  formSchema isEmail v !! "email" <> Some "Email is required"
  /\ (email v = "" ->
      formSchema isEmail v !! "email" = Some "Please enter a valid email address")
  /\ (isEmail (email v) = false ->
      formSchema isEmail v !! "email" = Some "Please enter a valid email address")
  /\ (isEmail (email v) = true -> formSchema isEmail v !! "email" = None).
Proof.
  intros Hempty. rewrite formSchema_email. unfold emailIssues, zEmail, zMin.
  destruct (isEmail (email v)) eqn:He; simpl.
  - destruct (email v) as [|c e]; [congruence|]. simpl.
    repeat split; congruence.
  - repeat split; congruence.
Qed.

(** X3. The schema reports errors under the keys [email] and [password]
    only; [remember] never has one. *)
Theorem schema_keys (v : Values) (k : string) :
  (is_Some (formSchema isEmail v !! k) -> k = "email" \/ k = "password")
  /\ formSchema isEmail v !! "remember" = None.
Proof.
  assert (H : forall k', k' <> "email" -> k' <> "password" ->
                formSchema isEmail v !! k' = None).
  { intros k' H1 H2. unfold formSchema.
    rewrite !report_lookup_ne by congruence.
    unfold rememberIssues. simpl. apply lookup_empty. }
  split.
  - intros [m Hm].
    destruct (decide (k = "email")) as [|H1]; [by left|].
    destruct (decide (k = "password")) as [|H2]; [by right|].
    rewrite (H k H1 H2) in Hm. discriminate.
  - apply H; discriminate.
Qed.

End Schema.

Section Submission.

Variable isEmail : string -> bool.

Lemma onSubmit_accepted (st : App) :
  formSchema isEmail (values (veeForm st)) = ∅ ->
  processing (inertiaForm st) = false ->
  onSubmit isEmail st
  = emit (Post "login" (data (inertiaForm st)))
      (setProcessing true (setErrors ∅ st)).
Proof.
  intros HE Hp. unfold onSubmit, handleSubmit. rewrite HE.
  rewrite decide_True by reflexivity.
  unfold post. simpl. rewrite Hp. reflexivity.
Qed.

Lemma onSubmit_rejected (st : App) :
  formSchema isEmail (values (veeForm st)) <> ∅ ->
  onSubmit isEmail st = setErrors (formSchema isEmail (values (veeForm st))) st.
Proof.
  intros HE. unfold onSubmit, handleSubmit. by rewrite decide_False.
Qed.

Lemma onSubmit_busy (st : App) :
  formSchema isEmail (values (veeForm st)) = ∅ ->
  processing (inertiaForm st) = true ->
  onSubmit isEmail st = setErrors ∅ st.
Proof.
  intros HE Hp. unfold onSubmit, handleSubmit. rewrite HE.
  rewrite decide_True by reflexivity.
  unfold post. simpl. rewrite Hp. reflexivity.
Qed.

(** X4. With values that pass the schema and no request in flight,
    [onSubmit] sends exactly one request, to the login route, carrying the
    Inertia form's values; [processing] is then true, so the button is
    disabled and reads "Logging In...". The local errors are cleared, and the
    Inertia form's values and errors and the dialog stay as they are. *)
Theorem accepted_submission (st : App) :
  formSchema isEmail (values (veeForm st)) = ∅ ->
  processing (inertiaForm st) = false ->
  let st' := onSubmit isEmail st in
  trace st' = (trace st ++ [Post "login" (data (inertiaForm st))])%list
  /\ processing (inertiaForm st') = true
  /\ submitDisabled st' = true
  /\ submitLabel st' = "Logging In..."
  /\ fieldErrors (veeForm st') = ∅
  /\ data (inertiaForm st') = data (inertiaForm st)
  /\ errors (inertiaForm st') = errors (inertiaForm st)
  /\ modalStore st' = modalStore st
  /\ clickSubmit isEmail st = st'.
Proof.
  intros HE Hp st'. unfold st', clickSubmit, submitDisabled, submitLabel.
  rewrite Hp, (onSubmit_accepted st HE Hp). simpl. repeat split.
Qed.

(** X5. Once the watchers have been flushed, whatever [onSubmit] sends has
    passed the schema: in any state the component can reach, either nothing
    is sent, or the one request sent goes to the login route with the Inertia
    form's values, and these pass the schema. *)
Theorem posted_values_pass_schema (open : bool) (evs : list Event) :
  let st := flush (run isEmail evs (mount open)) in
  trace (onSubmit isEmail st) = trace st
  \/ (trace (onSubmit isEmail st)
        = (trace st ++ [Post "login" (data (inertiaForm st))])%list
      /\ formSchema isEmail (data (inertiaForm st)) = ∅).
Proof.
  intros st.
  assert (Hm : values (veeForm st) = data (inertiaForm st)).
  { unfold st. rewrite flush_inertiaForm. apply flush_mirrors.
    apply run_synced, mount_synced. }
  destruct (decide (formSchema isEmail (values (veeForm st)) = ∅)) as [HE|HE].
  - destruct (processing (inertiaForm st)) eqn:Hp.
    + left. rewrite (onSubmit_busy st HE Hp). reflexivity.
    + right. rewrite (onSubmit_accepted st HE Hp). simpl.
      split; [reflexivity|]. rewrite <- Hm. exact HE.
  - left. rewrite (onSubmit_rejected st HE). reflexivity.
Qed.

(** *** Requests and their completions *)

Lemma calls_snoc p (t : list Effect) (e : Effect) :
  calls p (t ++ [e])%list = (calls p t + (if p e then 1 else 0))%nat.
Proof.
  rewrite calls_app. unfold calls at 2. rewrite filter_cons, filter_nil.
  destruct (p e); reflexivity.
Qed.

Lemma balanced_frame (st st' : App) :
  trace st' = trace st ->
  processing (inertiaForm st') = processing (inertiaForm st) ->
  balanced st -> balanced st'.
Proof. unfold balanced. intros -> ->. exact id. Qed.

Lemma onSubmit_balanced (st : App) : balanced st -> balanced (onSubmit isEmail st).
Proof.
  intros H.
  destruct (decide (formSchema isEmail (values (veeForm st)) = ∅)) as [HE|HE].
  - destruct (processing (inertiaForm st)) eqn:Hp.
    + rewrite (onSubmit_busy st HE Hp). revert H. by apply balanced_frame.
    + rewrite (onSubmit_accepted st HE Hp).
      destruct H as [H1 H2]. rewrite Hp in H1. unfold balanced. simpl.
      rewrite !calls_snoc. simpl. lia.
  - rewrite (onSubmit_rejected st HE). revert H. by apply balanced_frame.
Qed.

Lemma complete_balanced (o : Outcome) (st : App) :
  balanced st -> balanced (complete loginOptions o st).
Proof.
  intros H. destruct (processing (inertiaForm st)) eqn:Hp.
  - destruct H as [H1 H2]. rewrite Hp in H1.
    destruct o as [|E].
    + rewrite (complete_success st Hp). unfold balanced. simpl.
      rewrite !calls_snoc. simpl. lia.
    + rewrite (complete_failure st E Hp). unfold balanced. simpl.
      rewrite !calls_snoc. simpl. lia.
  - unfold complete. rewrite Hp. exact H.
Qed.

Lemma step_balanced (st : App) (e : Event) :
  balanced st -> balanced (step isEmail st e).
Proof.
  destruct e as [a| | | |o|b]; simpl.
  - by apply balanced_frame.
  - apply balanced_frame; [apply flush_trace | by rewrite flush_inertiaForm].
  - apply onSubmit_balanced.
  - unfold clickSubmit. destruct (submitDisabled st); [exact id|].
    apply onSubmit_balanced.
  - apply complete_balanced.
  - destruct b; by apply balanced_frame.
Qed.

Lemma run_balanced (evs : list Event) (st : App) :
  balanced st -> balanced (run isEmail evs st).
Proof.
  revert st. induction evs as [|e evs IH]; intros st H; simpl; [exact H|].
  apply IH, step_balanced, H.
Qed.

Lemma mount_balanced (open : bool) : balanced (mount open).
Proof. split; reflexivity. Qed.

(** X6. Whatever the events since the component was mounted, the requests
    sent are the finished ones plus the one in flight, if any: no two
    requests are in flight together and each request finishes at most once.
    Each finished request has shown exactly one toast. *)
Theorem requests_balance (open : bool) (evs : list Event) :
  let st := run isEmail evs (mount open) in
  calls isPost (trace st)
  = (calls isFinish (trace st) + (if processing (inertiaForm st) then 1 else 0))%nat
  /\ calls isToast (trace st) = calls isFinish (trace st)
  /\ (calls isPost (trace st) <= S (calls isFinish (trace st)))%nat.
Proof.
  intros st.
  destruct (run_balanced evs (mount open) (mount_balanced open)) as [H1 H2].
  fold st in H1, H2. repeat split; [exact H1 | exact H2 |].
  rewrite H1. destruct (processing (inertiaForm st)); lia.
Qed.

(** X7. Whatever the events since the component was mounted, the submit
    button is disabled, and reads "Logging In...", exactly while a request
    that was sent has not finished; once a request completes, however it
    ends, the button is enabled and reads "Log In". *)
Theorem button_busy_while_in_flight (open : bool) (evs : list Event) :
  let st := run isEmail evs (mount open) in
  (submitDisabled st = true
   <-> (calls isFinish (trace st) < calls isPost (trace st))%nat)
  /\ (submitLabel st = "Logging In..." <-> submitDisabled st = true)
  /\ (forall o : Outcome,
        submitDisabled (complete loginOptions o st) = false
        /\ submitLabel (complete loginOptions o st) = "Log In").
Proof.
  intros st.
  destruct (run_balanced evs (mount open) (mount_balanced open)) as [H1 _].
  fold st in H1. unfold submitDisabled, submitLabel.
  split; [|split].
  - rewrite H1. destruct (processing (inertiaForm st)); split; (lia || done).
  - destruct (processing (inertiaForm st)); split; done.
  - intros o. unfold complete.
    destruct (processing (inertiaForm st)) eqn:Hp; [|rewrite Hp; done].
    destruct o; done.
Qed.

End Submission.

(** *** What the handlers leave alone *)

Section Frames.

Variable isEmail : string -> bool.

Lemma onSubmit_frame (st : App) :
  modalStore (onSubmit isEmail st) = modalStore st
  /\ data (inertiaForm (onSubmit isEmail st)) = data (inertiaForm st)
  /\ errors (inertiaForm (onSubmit isEmail st)) = errors (inertiaForm st).
Proof.
  unfold onSubmit, handleSubmit, post. case_decide; [|done].
  simpl. destruct (processing (inertiaForm st)); done.
Qed.

Lemma step_keepsDialog (st : App) (e : Event) :
  keepsDialog e = true -> modalStore (step isEmail st e) = modalStore st.
Proof.
  destruct e as [a| | | |o|b]; simpl; try discriminate; intros He.
  - reflexivity.
  - apply flush_modalStore.
  - apply onSubmit_frame.
  - unfold clickSubmit. destruct (submitDisabled st); [reflexivity|].
    apply onSubmit_frame.
  - destruct o as [|E]; [discriminate|].
    unfold complete. destruct (processing (inertiaForm st)); reflexivity.
Qed.

(** X9. The dialog's open flag changes only when the open state is
    changed from outside or a request succeeds: typing, flushing, submitting
    (accepted or not) and failed requests, in any number and order, leave it
    as it is. *)
Theorem dialog_kept_open (st : App) (evs : list Event) :
  forallb keepsDialog evs = true ->
  modalStore (run isEmail evs st) = modalStore st.
Proof.
  revert st. induction evs as [|e evs IH]; intros st H; simpl; [reflexivity|].
  simpl in H. apply andb_prop in H as [He H].
  rewrite (IH _ H). by apply step_keepsDialog.
Qed.

Lemma step_keepsValues (st : App) (e : Event) :
  keepsValues e = true ->
  data (inertiaForm (step isEmail st e)) = data (inertiaForm st).
Proof.
  destruct e as [a| | | |o|b]; simpl; try discriminate; intros He.
  - by rewrite flush_inertiaForm.
  - apply onSubmit_frame.
  - unfold clickSubmit. destruct (submitDisabled st); [reflexivity|].
    apply onSubmit_frame.
  - destruct o as [|E]; [|discriminate].
    unfold complete. destruct (processing (inertiaForm st)); reflexivity.
  - destruct b; reflexivity.
Qed.

(** X10. The values of the Inertia form change only when the user writes a
    field or a request fails: flushing, submitting, a successful request and
    opening or closing the dialog, in any number and order, leave the email,
    the password and the remember flag as they are. *)
Theorem values_kept (st : App) (evs : list Event) :
  forallb keepsValues evs = true ->
  data (inertiaForm (run isEmail evs st)) = data (inertiaForm st).
Proof.
  revert st. induction evs as [|e evs IH]; intros st H; simpl; [reflexivity|].
  simpl in H. apply andb_prop in H as [He H].
  rewrite (IH _ H). by apply step_keepsValues.
Qed.

End Frames.

(** X8. When the request in flight fails with errors [E], the dialog's
    flag is left as it is, the Inertia form holds exactly [E] as its errors
    and is no longer processing, and the vee-validate form is untouched until
    the watchers run; if its values mirrored the watchers before, a flush then
    leaves both forms with the empty password and the email and remember
    values they had. *)
Theorem failure_leaves_dialog (st : App) (E : gmap string string) :
  processing (inertiaForm st) = true ->
  let st' := complete loginOptions (Failure E) st in
  modalStore st' = modalStore st
  /\ errors (inertiaForm st') = E
  /\ processing (inertiaForm st') = false
  /\ veeForm st' = veeForm st
  /\ (synced st ->
      values (veeForm (flush st'))
      = {| email := email (data (inertiaForm st)); password := "";
           remember := remember (data (inertiaForm st)) |}
      /\ data (inertiaForm (flush st')) = values (veeForm (flush st'))).
Proof.
  intros Hp st'.
  assert (Hd : data (inertiaForm st')
               = {| email := email (data (inertiaForm st)); password := "";
                    remember := remember (data (inertiaForm st)) |})
    by (unfold st'; rewrite (complete_failure st E Hp); reflexivity).
  assert (Hs : synced st -> synced st') by apply complete_synced.
  unfold st' in *. rewrite (complete_failure st E Hp) in *. simpl.
  do 4 (split; [reflexivity|]). intros Hsy. split.
  - rewrite flush_mirrors by auto. exact Hd.
  - rewrite flush_inertiaForm, flush_mirrors by auto. reflexivity.
Qed.

(** X11. Closing the dialog and opening it again shows none of the three
    error blocks, whatever errors the Inertia form held, and after a flush
    the vee-validate form has no errors either; the values typed so far and
    a request in flight are kept. *)
Theorem reopen_shows_no_errors (st : App) :
  let st' := updateOpenState true (updateOpenState false st) in
  emailErrorBlock (inertiaForm st') = None
  /\ passwordErrorBlock (inertiaForm st') = None
  /\ rememberErrorBlock (inertiaForm st') = None
  /\ fieldErrors (veeForm (flush st')) = ∅
  /\ isLoginOpen (modalStore st') = true
  /\ data (inertiaForm st') = data (inertiaForm st)
  /\ processing (inertiaForm st') = processing (inertiaForm st).
Proof.
  intros st'. unfold st'. repeat split.
  rewrite flush_replaced_errors; reflexivity.
Qed.

Lemma block_shown (o : option string) (s : string) :
  (if truthy o then Some (interpolate o) else None) = Some s
  <-> o = Some s /\ s <> "".
Proof.
  destruct o as [x|]; simpl.
  - destruct (String.eqb_spec x "") as [->|Hx]; simpl.
    + split; [discriminate | intros [[= <-] Hs]; contradiction].
    + split; [intros [= <-]; auto | intros [[= <-] _]; reflexivity].
  - split; [discriminate | intros [Hx _]; discriminate].
Qed.

Lemma block_hidden (o : option string) :
  (if truthy o then Some (interpolate o) else None) = None
  <-> o = None \/ o = Some "".
Proof.
  destruct o as [x|]; simpl.
  - destruct (String.eqb_spec x "") as [->|Hx]; simpl.
    + split; [auto | reflexivity].
    + split; [discriminate | intros [Hn|[= Hn]]; [discriminate | contradiction]].
  - split; [auto | reflexivity].
Qed.

(** X12. The email block and the remember block are shown exactly when
    their own field has a non-empty error, and then show that error; with no
    error, or an empty one, the block is hidden. *)
Theorem own_error_blocks (f : InertiaForm) (s : string) :
  (emailErrorBlock f = Some s <-> errors f !! "email" = Some s /\ s <> "")
  /\ (rememberErrorBlock f = Some s <-> errors f !! "remember" = Some s /\ s <> "")
  /\ (emailErrorBlock f = None
      <-> errors f !! "email" = None \/ errors f !! "email" = Some "")
  /\ (rememberErrorBlock f = None
      <-> errors f !! "remember" = None \/ errors f !! "remember" = Some "").
Proof.
  unfold emailErrorBlock, rememberErrorBlock.
  split; [apply block_shown|].
  split; [apply block_shown|].
  split; apply block_hidden.
Qed.

(** X13. A flush changes nothing exactly when the three watched values are
    the ones the watchers last saw and the errors were not replaced since:
    a field written back to the value last seen runs no callback. *)
Theorem flush_changes_nothing_iff (st : App) :
  flush st = st
  <-> data (inertiaForm st)
      = {| email := seenEmail (watchers st); password := seenPassword (watchers st);
           remember := seenRemember (watchers st) |}
      /\ errorsReplaced (watchers st) = false.
Proof.
  rewrite flush_eq.
  destruct st as [[[e p r] E pr] [[ve vp vr] vE] m [se sp sr er] t]; simpl.
  split.
  - intros [= H1 H2 H3 H4 H5 H6 H7 H8]. split; congruence.
  - intros [[= -> -> ->] ->].
    rewrite !decide_True by reflexivity. reflexivity.
Qed.

(** ** Instances of the further properties *)

(** With [hasAt] as the email test, the untouched form is told that its
    email is not valid, not that it is required. *)
Lemma email_required_never_reported_witness :
  hasAt "" = false
  /\ formSchema hasAt defaults !! "email" = Some "Please enter a valid email address".
Proof.
  split; [reflexivity|].
  destruct (email_required_never_reported hasAt defaults) as (_ & H & _);
    [reflexivity|].
  apply H. reflexivity.
Defined.

(** Valid values typed and flushed, then submitted. *)
Lemma accepted_submission_witness :
  let st := run hasAt scenarioValues (mount true) in
  formSchema hasAt (values (veeForm st)) = ∅
  /\ processing (inertiaForm st) = false
  /\ trace (onSubmit hasAt st)
     = [Post "login" {| email := "a@b.com"; password := "x"; remember := false |}]
  /\ processing (inertiaForm (onSubmit hasAt st)) = true.
Proof.
  intros st.
  assert (HE : formSchema hasAt (values (veeForm st)) = ∅) by (vm_compute; reflexivity).
  assert (Hp : processing (inertiaForm st) = false) by reflexivity.
  destruct (accepted_submission hasAt st HE Hp) as (Ht & Hp' & _).
  split; [exact HE|]. split; [exact Hp|]. split; [|exact Hp'].
  rewrite Ht. reflexivity.
Defined.

(** The rejected login leaves the open dialog open. *)
Lemma failure_leaves_dialog_witness :
  processing (inertiaForm inFlight) = true
  /\ modalStore (complete loginOptions (Failure rejected) inFlight) = modalStore inFlight
  /\ errors (inertiaForm (complete loginOptions (Failure rejected) inFlight)) = rejected.
Proof.
  split; [reflexivity|].
  destruct (failure_leaves_dialog inFlight rejected) as (Hm & He & _); [reflexivity|].
  split; [exact Hm | exact He].
Defined.

(** Typing, a submission and its failure, and a further click. *)
Lemma dialog_kept_open_witness :
  let evs := (scenarioValues ++ [Submit; Complete (Failure rejected); Flush; Click])%list in
  forallb keepsDialog evs = true
  /\ modalStore (run hasAt evs (mount true)) = modalStore (mount true).
Proof.
  intros evs. split; [reflexivity|].
  apply (dialog_kept_open hasAt (mount true) evs). reflexivity.
Defined.

(** A submission, its success, and the dialog closed and opened again. *)
Lemma values_kept_witness :
  let st := run hasAt scenarioValues (mount true) in
  let evs := [Flush; Submit; Complete Success; OpenChange false; OpenChange true] in
  forallb keepsValues evs = true
  /\ data (inertiaForm (run hasAt evs st)) = data (inertiaForm st).
Proof.
  intros st evs. split; [reflexivity|].
  apply (values_kept hasAt st evs). reflexivity.
Defined.
